(** * Screen monitor: the capture service of [screen_capture.py]

    A shallow embedding of [ScreenCaptureService]: its configuration
    dictionary, its statistics, the capture lifecycle, the loop tick, the
    image pipeline (processing, webhook shrink) and the webhook delivery
    ladder.

    Modelling choices, all following the Python source:
    - Python numbers: [int] as [Z]; [float] as an exact rational [Q]
      (NaN, infinities and rounding of binary floats are not modelled);
      Python strings passed as configuration values are not modelled.
    - An image is abstracted to its size and the list of texts drawn on
      it; [Image.resize] changes the size only.
    - [datetime.now()] is an explicit argument [now] of every operation
      that reads the clock.
    - The only mutable object of the configuration dictionary is its
      [webhook_urls] list.  It lives in a heap of Python lists; the
      configuration holds its location, so that [dict.copy()] shares it
      exactly as Python does.
    - Threads: starting the capture thread or a delivery thread is
      recorded in the state; the body of the loop is [tick], the body of
      a delivery thread is [send_async]. *)

From Stdlib Require Import QArith Qround Qminmax Lia ZArith.
From stdpp Require Import base gmap strings list.

Open Scope Z_scope.

(** ** Python values and conversions *)

Inductive PyVal :=
| PyInt (z : Z)
| PyFloat (q : Q)
| PyBool (b : bool)
| PyNone
| PyList (len : nat).        (* a list, abstracted to its length *)

(** Exceptions raised by the code we model. *)
Inductive Exn :=
| ValueError (msg : string)
| TypeError (msg : string)
| HTTPError (status : Z)          (* requests.exceptions.HTTPError *)
| RequestError                    (* connection error, timeout, ... *)
| LadderExhausted.                (* Exception("Failed to send image after 3 ...") *)

(** [int(q)] on a float truncates towards zero. *)
Definition py_trunc (q : Q) : Z := Z.quot (Qnum q) (Zpos (Qden q)).

(** [float(v)] *)
Definition py_float (v : PyVal) : Exn + Q :=
  match v with
  | PyInt z => inr (inject_Z z)
  | PyFloat q => inr q
  | PyBool b => inr (if b then 1%Q else 0%Q)
  | PyNone => inl (TypeError "float() argument must be a string or a real number")
  | PyList _ => inl (TypeError "float() argument must be a string or a real number")
  end.

(** [int(v)] *)
Definition py_int (v : PyVal) : Exn + Z :=
  match v with
  | PyInt z => inr z
  | PyFloat q => inr (py_trunc q)
  | PyBool b => inr (if b then 1 else 0)
  | PyNone => inl (TypeError "int() argument must be a string or a real number")
  | PyList _ => inl (TypeError "int() argument must be a string or a real number")
  end.

(** [bool(v)] (truthiness) *)
Definition py_bool (v : PyVal) : bool :=
  match v with
  | PyInt z => negb (Z.eqb z 0)
  | PyFloat q => negb (Qeq_bool q 0)
  | PyBool b => b
  | PyNone => false
  | PyList n => negb (Nat.eqb n 0)
  end.

Definition exn_msg (e : Exn) : string :=
  match e with
  | ValueError m | TypeError m => m
  | HTTPError _ => "HTTP error"
  | RequestError => "request failed"
  | LadderExhausted => "Failed to send image after 3 attempts with different sizes"
  end.

(** ** The configuration dictionary [self._config] *)

(** Location of a Python list in the heap. *)
Abbreviation loc := positive.

Record Config := mkConfig {
  interval : Q;
  quality : Z;
  resize_factor : Q;
  add_timestamp : bool;
  monitor : Z;
  webhook_urls : loc;
  send_to_external : bool;
  external_format : string;
  webhook_quality : Z;
  webhook_max_width : Z;
  webhook_max_height : Z
}.

Definition set_interval (q : Q) (c : Config) : Config :=
  mkConfig q c.(quality) c.(resize_factor) c.(add_timestamp) c.(monitor)
    c.(webhook_urls) c.(send_to_external) c.(external_format)
    c.(webhook_quality) c.(webhook_max_width) c.(webhook_max_height).
Definition set_quality (z : Z) (c : Config) : Config :=
  mkConfig c.(interval) z c.(resize_factor) c.(add_timestamp) c.(monitor)
    c.(webhook_urls) c.(send_to_external) c.(external_format)
    c.(webhook_quality) c.(webhook_max_width) c.(webhook_max_height).
Definition set_resize_factor (q : Q) (c : Config) : Config :=
  mkConfig c.(interval) c.(quality) q c.(add_timestamp) c.(monitor)
    c.(webhook_urls) c.(send_to_external) c.(external_format)
    c.(webhook_quality) c.(webhook_max_width) c.(webhook_max_height).
Definition set_add_timestamp (b : bool) (c : Config) : Config :=
  mkConfig c.(interval) c.(quality) c.(resize_factor) b c.(monitor)
    c.(webhook_urls) c.(send_to_external) c.(external_format)
    c.(webhook_quality) c.(webhook_max_width) c.(webhook_max_height).
Definition set_monitor (z : Z) (c : Config) : Config :=
  mkConfig c.(interval) c.(quality) c.(resize_factor) c.(add_timestamp) z
    c.(webhook_urls) c.(send_to_external) c.(external_format)
    c.(webhook_quality) c.(webhook_max_width) c.(webhook_max_height).
Definition set_send_to_external (b : bool) (c : Config) : Config :=
  mkConfig c.(interval) c.(quality) c.(resize_factor) c.(add_timestamp)
    c.(monitor) c.(webhook_urls) b c.(external_format)
    c.(webhook_quality) c.(webhook_max_width) c.(webhook_max_height).
Definition set_external_format_field (s : string) (c : Config) : Config :=
  mkConfig c.(interval) c.(quality) c.(resize_factor) c.(add_timestamp)
    c.(monitor) c.(webhook_urls) c.(send_to_external) s
    c.(webhook_quality) c.(webhook_max_width) c.(webhook_max_height).

(** The location of the list created by [__init__] for [webhook_urls]. *)
Definition init_urls_loc : loc := 1%positive.

Definition init_config : Config := {|
  interval := 1%Q;
  quality := 85;
  resize_factor := (1#2)%Q;
  add_timestamp := true;
  monitor := 0;
  webhook_urls := init_urls_loc;
  send_to_external := false;
  external_format := "base64";
  webhook_quality := 60;
  webhook_max_width := 1280;
  webhook_max_height := 720
|}.

(** ** [update_config]: a state-and-exception monad over the dictionary

    Python mutates [self._config] in place as it goes; an exception keeps
    the mutations already made.  [CfgM] threads the dictionary and keeps
    it on the exceptional path too. *)

Definition CfgM (A : Type) : Type := Config -> (Exn + A) * Config.

Definition cret {A} (a : A) : CfgM A := fun c => (inr a, c).
Definition cbind {A B} (m : CfgM A) (k : A -> CfgM B) : CfgM B :=
  fun c => match m c with
           | (inl e, c') => (inl e, c')
           | (inr a, c') => k a c'
           end.
Definition craise {A} (e : Exn) : CfgM A := fun c => (inl e, c).
Definition clift {A} (r : Exn + A) : CfgM A := fun c => (r, c).
Definition cmodify (f : Config -> Config) : CfgM unit := fun c => (inr tt, f c).

Notation "x <-- m ;; k" := (cbind m (fun x => k))
  (at level 100, m at next level, right associativity).
Notation "m ;;; k" := (cbind m (fun _ => k)) (at level 100, right associativity).

(** A partial update [new_config] is a Python dict with string keys. *)
Abbreviation Update := (gmap string PyVal).

(** [if key in new_config: ...] *)
Definition when_present (u : Update) (key : string) (k : PyVal -> CfgM unit)
  : CfgM unit :=
  match u !! key with
  | Some v => k v
  | None => cret tt
  end.

Definition update_config_body (u : Update) : CfgM unit :=
  when_present u "interval" (fun v =>
    i <-- clift (py_float v) ;;
    if Qle_bool i 0 then craise (ValueError "Interval must be positive")
    else cmodify (set_interval i)) ;;;
  when_present u "quality" (fun v =>
    q <-- clift (py_int v) ;;
    if negb ((1 <=? q) && (q <=? 100))
    then craise (ValueError "Quality must be between 1 and 100")
    else cmodify (set_quality q)) ;;;
  when_present u "resize_factor" (fun v =>
    r <-- clift (py_float v) ;;
    if Qle_bool r 0 then craise (ValueError "Resize factor must be positive")
    else cmodify (set_resize_factor r)) ;;;
  when_present u "add_timestamp" (fun v =>
    cmodify (set_add_timestamp (py_bool v))) ;;;
  when_present u "monitor" (fun v =>
    m <-- clift (py_int v) ;;
    if m <? 0 then craise (ValueError "Monitor index must be non-negative")
    else cmodify (set_monitor m)).

(** [update_config]: the exceptions it raises are all [ValueError] or
    [TypeError], which its [except] clause catches. *)
Definition update_config_result (u : Update) (c : Config)
  : (Exn + unit) * Config :=
  update_config_body u c.

(** ** Images *)

Record Image := mkImage {
  width : Z;
  height : Z;
  texts : list string      (* texts drawn on the image, in order *)
}.

(** [image.resize((w, h), LANCZOS)] *)
Definition resize (img : Image) (w h : Z) : Image := mkImage w h img.(texts).

(** The two renderings of [datetime.now()] the code uses. *)
Record Now := mkNow {
  iso_format : string;        (* now.isoformat() *)
  stamp : string              (* now.strftime("%Y-%m-%d %H:%M:%S") *)
}.

(** [int(image.width * factor)] *)
Definition scale_dim (d : Z) (f : Q) : Z := py_trunc (inject_Z d * f)%Q.

(** [_add_timestamp]: draws on a copy of the image. *)
Definition add_timestamp_img (now : Now) (img : Image) : Image :=
  mkImage img.(width) img.(height) (img.(texts) ++ [now.(stamp)]).

(** [_process_image] *)
Definition process_image (cfg : Config) (now : Now) (img : Image) : Image :=
  let img1 :=
    if negb (Qeq_bool cfg.(resize_factor) 1)
    then resize img (scale_dim img.(width) cfg.(resize_factor))
                    (scale_dim img.(height) cfg.(resize_factor))
    else img in
  if cfg.(add_timestamp) then add_timestamp_img now img1 else img1.

(** [_create_test_image]: an 800x600 placeholder (shapes omitted). *)
Definition create_test_image (now : Now) : Image :=
  mkImage 800 600
    ["Screen Monitor - Test Mode";
     String.append "Captured: " now.(stamp);
     "Running in headless environment - showing test image"].

(** [a < b] on floats. *)
Definition Qlt_bool (a b : Q) : bool := negb (Qle_bool b a).

(** Python's [min(a, b)]: [b] only when [b < a]. *)
Definition py_min (a b : Q) : Q := if Qlt_bool b a then b else a.

(** [_optimize_image_for_webhook] *)
Definition optimize_image_for_webhook (cfg : Config) (img : Image) : Image :=
  let max_width := cfg.(webhook_max_width) in
  let max_height := cfg.(webhook_max_height) in
  let width_factor :=
    if max_width <? img.(width) then (inject_Z max_width / inject_Z img.(width))%Q
    else 1%Q in
  let height_factor :=
    if max_height <? img.(height) then (inject_Z max_height / inject_Z img.(height))%Q
    else 1%Q in
  let rf := py_min width_factor height_factor in
  if Qlt_bool rf 1
  then resize img (scale_dim img.(width) rf) (scale_dim img.(height) rf)
  else img.

(** ** Service state *)

Inductive CaptureLib := Mss | PyAutoGui.

Record Stats := mkStats {
  total_captures : Z;
  failed_captures : Z;
  start_time : option Now
}.

(** A started [send_async] thread: the closure holds the [webhook_urls]
    list object (not a copy) and the optimized image. *)
Record Job := mkJob {
  job_urls : loc;
  job_image : Image
}.

Record State := mkState {
  capture_library : option CaptureLib;   (* module constant CAPTURE_LIBRARY *)
  capturing : bool;
  latest_image : option Image;
  last_capture_time : option string;
  last_error : option string;
  stats : Stats;
  config : Config;
  heap : gmap loc (list string);         (* Python list objects *)
  delivery_threads : list Job
}.

Definition init_state (lib : option CaptureLib) : State := {|
  capture_library := lib;
  capturing := false;
  latest_image := None;
  last_capture_time := None;
  last_error := None;
  stats := mkStats 0 0 None;
  config := init_config;
  heap := {[ init_urls_loc := [] ]};
  delivery_threads := []
|}.

Definition set_config (c : Config) (s : State) : State :=
  mkState s.(capture_library) s.(capturing) s.(latest_image)
    s.(last_capture_time) s.(last_error) s.(stats) c s.(heap)
    s.(delivery_threads).
Definition set_last_error (e : option string) (s : State) : State :=
  mkState s.(capture_library) s.(capturing) s.(latest_image)
    s.(last_capture_time) e s.(stats) s.(config) s.(heap)
    s.(delivery_threads).
Definition set_stats (st : Stats) (s : State) : State :=
  mkState s.(capture_library) s.(capturing) s.(latest_image)
    s.(last_capture_time) s.(last_error) st s.(config) s.(heap)
    s.(delivery_threads).
Definition set_capturing (b : bool) (s : State) : State :=
  mkState s.(capture_library) b s.(latest_image)
    s.(last_capture_time) s.(last_error) s.(stats) s.(config) s.(heap)
    s.(delivery_threads).
Definition set_heap (h : gmap loc (list string)) (s : State) : State :=
  mkState s.(capture_library) s.(capturing) s.(latest_image)
    s.(last_capture_time) s.(last_error) s.(stats) s.(config) h
    s.(delivery_threads).
Definition start_delivery_thread (j : Job) (s : State) : State :=
  mkState s.(capture_library) s.(capturing) s.(latest_image)
    s.(last_capture_time) s.(last_error) s.(stats) s.(config) s.(heap)
    (s.(delivery_threads) ++ [j]).
Definition publish (img : Image) (t : string) (s : State) : State :=
  mkState s.(capture_library) s.(capturing) (Some img) (Some t)
    s.(last_error) s.(stats) s.(config) s.(heap) s.(delivery_threads).

Definition incr_total (st : Stats) : Stats :=
  mkStats (st.(total_captures) + 1) st.(failed_captures) st.(start_time).
Definition incr_failed (st : Stats) : Stats :=
  mkStats st.(total_captures) (st.(failed_captures) + 1) st.(start_time).

(** The contents of the list object at [l] ([[]] if unallocated). *)
Definition list_at (s : State) (l : loc) : list string :=
  default [] (s.(heap) !! l).

(** [self._config.get('webhook_urls', [])], as seen by its contents. *)
Definition webhook_list (s : State) : list string :=
  list_at s s.(config).(webhook_urls).

(** ** Public getters *)

(** [get_config]: [self._config.copy()], a new dictionary whose values are
    the same objects: the [webhook_urls] entry is the same list. *)
Definition get_config (s : State) : Config := s.(config).

Definition get_stats (s : State) : Stats := s.(stats).

Definition get_latest_image (s : State) : option Image := s.(latest_image).

(** [get_webhook_urls]: the list object itself. *)
Definition get_webhook_urls (s : State) : loc := s.(config).(webhook_urls).

(** A caller's [lst.append(x)] on a list object it holds. *)
Definition py_list_append (l : loc) (x : string) (s : State) : State :=
  set_heap (<[ l := list_at s l ++ [x] ]> s.(heap)) s.

(** ** [update_config] on the service *)

Definition update_config (u : Update) (s : State) : State * bool :=
  match update_config_body u s.(config) with
  | (inl e, c') =>
      (set_last_error (Some (String.append "Invalid configuration: " (exn_msg e)))
         (set_config c' s), false)
  | (inr _, c') => (set_config c' s, true)
  end.

(** ** Delivery dispatch [_send_to_external_systems] *)

Definition send_to_external_systems (img : Image) (s : State) : State :=
  match webhook_list s with
  | [] => s
  | _ :: _ =>
      start_delivery_thread
        (mkJob s.(config).(webhook_urls)
               (optimize_image_for_webhook s.(config) img)) s
  end.

(** ** Capture: [_capture_screenshot] and the loop body *)

(** What the frame source does on one call. *)
Inductive Acquisition :=
| Grabbed (img : Image)      (* sct.grab / pyautogui.screenshot succeeded *)
| Headless                   (* no DISPLAY nor WAYLAND_DISPLAY *)
| GrabFailed.                (* the library raised *)

(** [_capture_screenshot]: the failure and headless paths return the test
    image; an [Image] object is always truthy, so [Some] is returned. *)
Definition capture_screenshot (lib : option CaptureLib) (acq : Acquisition)
    (now : Now) : option Image :=
  match lib with
  | None => Some (create_test_image now)   (* RuntimeError, caught *)
  | Some _ =>
      match acq with
      | Grabbed img => Some img
      | Headless => Some (create_test_image now)
      | GrabFailed => Some (create_test_image now)
      end
  end.

(** One iteration of [_capture_loop] (the sleep is not modelled). *)
Definition tick (acq : Acquisition) (now : Now) (s : State) : State :=
  match capture_screenshot s.(capture_library) acq now with
  | Some image =>
      let processed := process_image s.(config) now image in
      let s1 := set_stats (incr_total s.(stats))
                  (publish processed now.(iso_format) s) in
      if s1.(config).(send_to_external) then send_to_external_systems processed s1
      else s1
  | None => set_stats (incr_failed s.(stats)) s
  end.

(** [feed_external_image] *)
Definition feed_external_image (image : Image) (now : Now) (s : State)
  : State * bool :=
  let processed := process_image s.(config) now image in
  let s1 := set_stats (incr_total s.(stats))
              (publish processed now.(iso_format) s) in
  if s1.(config).(send_to_external)
  then (send_to_external_systems processed s1, true)
  else (s1, true).

(** ** Lifecycle: [start_capture] and [stop_capture] *)

(** [start_capture(interval, quality)].  A conversion error of an override
    is not caught: it propagates to the caller ([inl]), after the overrides
    already applied. *)
Definition start_capture (interval_arg quality_arg : option PyVal) (now : Now)
    (s : State) : State * (Exn + bool) :=
  match s.(capture_library) with
  | None => (set_last_error (Some "No screen capture library available") s, inr false)
  | Some _ =>
      if s.(capturing) then (s, inr true) else
      let r1 :=
        match interval_arg with
        | None => inr s
        | Some v =>
            match py_float v with
            | inl e => inl e
            | inr i => inr (set_config (set_interval i s.(config)) s)
            end
        end in
      match r1 with
      | inl e => (s, inl e)
      | inr s1 =>
          let r2 :=
            match quality_arg with
            | None => inr s1
            | Some v =>
                match py_int v with
                | inl e => inl e
                | inr q => inr (set_config (set_quality q s1.(config)) s1)
                end
            end in
          match r2 with
          | inl e => (s1, inl e)
          | inr s2 =>
              (* _capturing = True; start_time = now; counters reset;
                 _last_error = None; the capture thread is started *)
              (set_last_error None
                 (set_stats (mkStats 0 0 (Some now)) (set_capturing true s2)),
               inr true)
          end
      end
  end.

(** [stop_capture]: the join with the thread is not modelled. *)
Definition stop_capture (s : State) : State :=
  if negb s.(capturing) then s else set_capturing false s.

(** ** Webhook targets *)

(** [list.remove(x)]: removes the first occurrence (the caller checked
    membership, so the [ValueError] path is never taken). *)
Fixpoint py_list_remove (x : string) (l : list string) : list string :=
  match l with
  | [] => []
  | y :: t => if String.eqb x y then t else y :: py_list_remove x t
  end.

(** [add_webhook_url]: the [webhook_urls] key is always present, so the
    branch creating it is never taken. *)
Definition add_webhook_url (url : string) (s : State) : State * bool :=
  if bool_decide (url ∈ webhook_list s) then (s, false)
  else (py_list_append s.(config).(webhook_urls) url s, true).

Definition remove_webhook_url (url : string) (s : State) : State * bool :=
  if bool_decide (url ∈ webhook_list s)
  then (set_heap (<[ s.(config).(webhook_urls) :=
                       py_list_remove url (webhook_list s) ]> s.(heap)) s, true)
  else (s, false).

Definition enable_external_sending (enabled : bool) (s : State) : State :=
  set_config (set_send_to_external enabled s.(config)) s.

Definition set_external_format (format_type : string) (s : State) : State * bool :=
  if bool_decide (format_type ∈ ["base64"; "multipart"])
  then (set_config (set_external_format_field format_type s.(config)) s, true)
  else (s, false).

(** ** Delivery: [_send_image_to_url] *)

(** What [requests.post] yields for one request. *)
Inductive Response :=
| Status (code : Z)       (* a response with this status code *)
| ConnFailure.            (* requests raised (connection error, timeout) *)

(** The observable part of one [requests.post]. *)
Record Request := mkRequest {
  req_url : string;
  req_format : string;
  req_quality : Z;          (* JPEG quality of the encoded image *)
  req_width : Z;
  req_height : Z
}.

(** [response.raise_for_status()] raises for 4xx and 5xx. *)
Definition is_http_error (code : Z) : bool := (400 <=? code) && (code <? 600).

(** The responses of one target, indexed by attempt number. *)
Abbreviation Network := (nat -> Response).

Definition max_attempts : nat := 3.

Definition quality_levels (webhook_q : Z) : list Z :=
  [webhook_q; Z.max (webhook_q - 20) 30; Z.max (webhook_q - 40) 20].

Definition resize_factors : list Q := [1%Q; (4#5)%Q; (3#5)%Q].

(** The base64 branch: [for attempt in range(max_attempts)] over the rungs
    still to try. *)
Fixpoint base64_ladder (img : Image) (url : string) (net : Network)
    (attempt : nat) (rungs : list (Z * Q)) : list Request * (Exn + unit) :=
  match rungs with
  | [] => ([], inl LadderExhausted)
  | (current_quality, current_resize) :: rest =>
      let working_image :=
        if Qlt_bool current_resize 1
        then resize img (scale_dim img.(width) current_resize)
                        (scale_dim img.(height) current_resize)
        else img in
      let req := mkRequest url "base64" current_quality
                   working_image.(width) working_image.(height) in
      let continue_ :=
        let '(reqs, res) := base64_ladder img url net (S attempt) rest in
        (req :: reqs, res) in
      match net attempt with
      | ConnFailure => ([req], inl RequestError)
      | Status code =>
          if code =? 413 then continue_
          else if is_http_error code then
            (* except HTTPError *)
            if (code =? 413) && (Nat.ltb attempt (max_attempts - 1))
            then continue_
            else ([req], inl (HTTPError code))
          else ([req], inr tt)
      end
  end.

Definition send_image_to_url (cfg : Config) (img : Image) (url : string)
    (net : Network) : list Request * (Exn + unit) :=
  if String.eqb cfg.(external_format) "base64" then
    base64_ladder img url net 0
      (combine (quality_levels cfg.(webhook_quality)) resize_factors)
  else if String.eqb cfg.(external_format) "multipart" then
    let req := mkRequest url "multipart" cfg.(quality) img.(width) img.(height) in
    match net 0%nat with
    | ConnFailure => ([req], inl RequestError)
    | Status code =>
        if is_http_error code then ([req], inl (HTTPError code))
        else ([req], inr tt)
    end
  else ([], inr tt).

(** [send_async]: every URL of the (live) list in turn; a failure is
    caught per URL and written to [_last_error]. *)
Fixpoint send_async_loop (cfg : Config) (img : Image) (urls : list string)
    (nets : string -> Network) (err : option string)
    : list (string * list Request * (Exn + unit)) * option string :=
  match urls with
  | [] => ([], err)
  | url :: rest =>
      let '(reqs, res) := send_image_to_url cfg img url (nets url) in
      let err' :=
        match res with
        | inl e => Some (String.append "Webhook send failed to "
                           (String.append url (String.append ": " (exn_msg e))))
        | inr _ => err
        end in
      let '(outs, err'') := send_async_loop cfg img rest nets err' in
      ((url, reqs, res) :: outs, err'')
  end.

(** Running a delivery thread to completion against the current state. *)
Definition run_delivery (j : Job) (nets : string -> Network) (s : State) : State :=
  set_last_error
    (snd (send_async_loop s.(config) j.(job_image) (list_at s j.(job_urls))
            nets s.(last_error))) s.

(** ** Public operations and reachable states *)

Inductive Op :=
| OpUpdateConfig (u : Update)
| OpStart (interval_arg quality_arg : option PyVal) (now : Now)
| OpStop
| OpTick (acq : Acquisition) (now : Now)
| OpFeed (img : Image) (now : Now)
| OpAddUrl (url : string)
| OpRemoveUrl (url : string)
| OpEnableExternal (enabled : bool)
| OpSetFormat (format_type : string)
| OpDeliver (j : Job) (nets : string -> Network).

Definition exec_op (op : Op) (s : State) : State :=
  match op with
  | OpUpdateConfig u => fst (update_config u s)
  | OpStart i q now => fst (start_capture i q now s)
  | OpStop => stop_capture s
  | OpTick acq now => tick acq now s
  | OpFeed img now => fst (feed_external_image img now s)
  | OpAddUrl url => fst (add_webhook_url url s)
  | OpRemoveUrl url => fst (remove_webhook_url url s)
  | OpEnableExternal b => enable_external_sending b s
  | OpSetFormat f => fst (set_external_format f s)
  | OpDeliver j nets => run_delivery j nets s
  end.

(** The capture loop only runs ticks while [_capturing] is set; a
    delivery runs only for a thread that was started. *)
Definition op_enabled (op : Op) (s : State) : Prop :=
  match op with
  | OpTick _ _ => s.(capturing) = true
  | OpDeliver j _ => j ∈ s.(delivery_threads)
  | _ => True
  end.

(** States reached from construction by operations satisfying [allowed]. *)
Inductive reachable_by (allowed : Op -> Prop) (lib : option CaptureLib)
  : State -> Prop :=
| rb_init : reachable_by allowed lib (init_state lib)
| rb_step s op :
    reachable_by allowed lib s -> op_enabled op s -> allowed op ->
    reachable_by allowed lib (exec_op op s).

Definition reachable (lib : option CaptureLib) : State -> Prop :=
  reachable_by (fun _ => True) lib.

(** ** Spec-side reading of a partial update

    [validated_field key v] is the change a supplied field makes when its
    value passes the documented checks (interval > 0, quality in 1..100,
    resize factor > 0, monitor >= 0), [None] when it fails them.  Keys
    outside the five display fields are not touched by [update_config]. *)

Definition display_keys : list string :=
  ["interval"; "quality"; "resize_factor"; "add_timestamp"; "monitor"].

Definition validated_field (key : string) (v : PyVal) : option (Config -> Config) :=
  if String.eqb key "interval" then
    match py_float v with
    | inr q => if Qlt_bool 0 q then Some (set_interval q) else None
    | inl _ => None
    end
  else if String.eqb key "quality" then
    match py_int v with
    | inr q => if (1 <=? q) && (q <=? 100) then Some (set_quality q) else None
    | inl _ => None
    end
  else if String.eqb key "resize_factor" then
    match py_float v with
    | inr q => if Qlt_bool 0 q then Some (set_resize_factor q) else None
    | inl _ => None
    end
  else if String.eqb key "add_timestamp" then Some (set_add_timestamp (py_bool v))
  else if String.eqb key "monitor" then
    match py_int v with
    | inr m => if 0 <=? m then Some (set_monitor m) else None
    | inl _ => None
    end
  else Some id.

Definition field_valid (key : string) (v : PyVal) : bool :=
  match validated_field key v with Some _ => true | None => false end.

(** The first supplied display field whose value is invalid. *)
Definition first_invalid (u : Update) : option string :=
  List.find (fun k => match u !! k with
                      | Some v => negb (field_valid k v)
                      | None => false
                      end) display_keys.

(** Apply, in order, the supplied fields up to the first invalid one. *)
Fixpoint apply_valid_prefix (u : Update) (keys : list string) (c : Config)
  : Config :=
  match keys with
  | [] => c
  | k :: t =>
      match u !! k with
      | None => apply_valid_prefix u t c
      | Some v =>
          match validated_field k v with
          | Some f => apply_valid_prefix u t (f c)
          | None => c
          end
      end
  end.

(** The keys of [keys] strictly before [k]. *)
Fixpoint keys_before (k : string) (keys : list string) : list string :=
  match keys with
  | [] => []
  | x :: t => if String.eqb x k then [] else x :: keys_before k t
  end.

(** [x] converted, or the default when the conversion raised. *)
Definition conv_or {A} (r : Exn + A) (d : A) : A :=
  match r with inr a => a | inl _ => d end.
(** ** Spec-side reading of the ranges *)

Definition config_in_range (c : Config) : Prop :=
  (0 < c.(interval))%Q /\ 1 <= c.(quality) <= 100 /\
  (0 < c.(resize_factor))%Q /\ 0 <= c.(monitor).

(** [start_capture]'s overrides, when given, convert to in-range values. *)
Definition start_overrides_in_range (op : Op) : Prop :=
  match op with
  | OpStart i q _ =>
      match i with
      | Some v => exists x, py_float v = inr x /\ (0 < x)%Q
      | None => True
      end /\
      match q with
      | Some v => exists z, py_int v = inr z /\ 1 <= z <= 100
      | None => True
      end
  | _ => True
  end.


(** ** Spec-side reading of the delivery ladder

    Rung [i] (from 0) of the claimed ladder: quality = configured webhook
    quality, then that minus 20 floored at 30, then minus 40 floored at 20;
    resize factor 1.0, 0.8, 0.6. *)

Definition spec_quality (wq : Z) (i : nat) : Z :=
  match i with
  | O => wq
  | S O => Z.max (wq - 20) 30
  | _ => Z.max (wq - 40) 20
  end.

Definition spec_resize (i : nat) : Q :=
  match i with
  | O => 1%Q
  | S O => (4#5)%Q
  | _ => (3#5)%Q
  end.

Definition rung_request (cfg : Config) (img : Image) (url : string) (i : nat)
  : Request :=
  mkRequest url "base64" (spec_quality cfg.(webhook_quality) i)
    (scale_dim img.(width) (spec_resize i)) (scale_dim img.(height) (spec_resize i)).

Definition response_ok (r : Response) : bool :=
  match r with
  | Status code => negb (is_http_error code)
  | ConnFailure => false
  end.

(** The claimed per-target protocol, on the requests made and the result:
    1 to 3 attempts; attempt [i] is rung [i]; an attempt is followed by
    another exactly when it got 413 and rungs remain; a 413 on the last
    rung is a failure; otherwise the last response decides the result. *)
Definition ladder_claim (cfg : Config) (img : Image) (url : string)
    (net : Network) (out : list Request * (Exn + unit)) : Prop :=
  let '(reqs, res) := out in
  (1 <= length reqs <= 3)%nat /\
  (forall i req, reqs !! i = Some req -> req = rung_request cfg img url i) /\
  (forall i, (S i < length reqs)%nat -> net i = Status 413) /\
  (forall i, S i = length reqs -> net i = Status 413 ->
             length reqs = 3%nat /\ exists e, res = inl e) /\
  (forall i, S i = length reqs -> net i <> Status 413 ->
             (res = inr tt <-> response_ok (net i) = true)).

(** ** The HTTP route [POST /api/start] of app.py *)

(** [data.get(key, default)] *)
Definition dict_get (u : Update) (k : string) (d : PyVal) : PyVal :=
  default d (u !! k).

(** [start_capture()] of app.py, for a JSON object body [data]
    ([request.get_json() or {}]); the result is the state and the HTTP
    status of the response.  An exception escaping the service is caught
    by the route's [except] and answered with 500. *)
Definition api_start (data : Update) (now : Now) (s : State) : State * Z :=
  let interval := dict_get data "interval" (PyFloat 1) in
  let quality := dict_get data "quality" (PyInt 85) in
  let '(s1, config_ok) :=
    if Nat.eqb (size data) 0 then (s, true) else update_config data s in
  if negb config_ok then (s1, 400) else
  match start_capture (Some interval) (Some quality) now s1 with
  | (s2, inr true) => (s2, 200)
  | (s2, inr false) => (s2, 500)
  | (s2, inl _) => (s2, 500)
  end.

(** ** Auxiliary predicates for invariants *)

(** The configuration entries no public operation writes, and the two
    that only validated writes reach. *)
Definition fixed_settings (c : Config) : Prop :=
  c.(webhook_quality) = 60 /\ c.(webhook_max_width) = 1280 /\
  c.(webhook_max_height) = 720 /\ (0 < c.(resize_factor))%Q /\
  c.(external_format) ∈ ["base64"; "multipart"].

Definition image_dims_nonneg (img : Image) : Prop :=
  0 <= img.(width) /\ 0 <= img.(height).

(** Frames coming from the capture library or a caller have sizes >= 0. *)
Definition op_frames_nonneg (op : Op) : Prop :=
  match op with
  | OpTick (Grabbed img) _ => image_dims_nonneg img
  | OpFeed img _ => image_dims_nonneg img
  | _ => True
  end.

(** ** Sanity checks on small inputs *)

Definition now0 : Now := mkNow "2026-01-01T00:00:00" "2026-01-01 00:00:00".

Example update_partial_applies :
  let '(s', ok) := update_config
      (<[ "interval" := PyInt 2 ]> (<[ "quality" := PyInt 0 ]> ∅))
      (init_state (Some Mss)) in
  ok = false /\ s'.(config).(interval) = inject_Z 2.
Proof. vm_compute. split; reflexivity. Qed.

Example optimize_1920 :
  let i := optimize_image_for_webhook init_config (mkImage 1920 1080 []) in
  (i.(width), i.(height)) = (1280, 720).
Proof. vm_compute. reflexivity. Qed.

Example ladder_413_twice :
  send_image_to_url init_config (mkImage 1280 720 []) "u"
    (fun n => match n with 0%nat | 1%nat => Status 413 | _ => Status 200 end)
  = ([mkRequest "u" "base64" 60 1280 720; mkRequest "u" "base64" 40 1024 576;
      mkRequest "u" "base64" 20 768 432], inr tt).
Proof. vm_compute. reflexivity. Qed.

(** ** Invariants of the service state *)

Ltac unfold_cfgm :=
  unfold update_config_body, when_present, cbind, cret, craise, clift, cmodify.

Lemma update_config_body_urls (u : Update) (c : Config) :
  (snd (update_config_body u c)).(webhook_urls) = c.(webhook_urls).
Proof. unfold_cfgm. repeat (case_match; simplify_eq/=); done. Qed.

Lemma py_list_remove_sublist (x : string) (l : list string) :
  sublist (py_list_remove x l) l.
Proof.
  induction l as [|y t IH]; simpl; [done|].
  destruct (String.eqb x y); [by apply sublist_cons|by apply sublist_skip].
Qed.

Lemma list_at_insert_eq (s : State) (l : loc) (v : list string) :
  list_at (set_heap (<[ l := v ]> s.(heap)) s) l = v.
Proof. unfold list_at; simpl. by rewrite lookup_insert_eq. Qed.

Definition service_inv (s : State) : Prop :=
  s.(config).(webhook_urls) = init_urls_loc /\
  NoDup (webhook_list s) /\
  (s.(capturing) = true -> is_Some s.(capture_library)).

Lemma send_to_external_systems_inv (img : Image) (s : State) :
  (send_to_external_systems img s).(config) = s.(config) /\
  (send_to_external_systems img s).(heap) = s.(heap) /\
  (send_to_external_systems img s).(capturing) = s.(capturing) /\
  (send_to_external_systems img s).(capture_library) = s.(capture_library).
Proof. unfold send_to_external_systems. by case_match. Qed.

Lemma reachable_by_inv (allowed : Op -> Prop) (lib : option CaptureLib) (s : State) :
  reachable_by allowed lib s -> service_inv s.
Proof.
  induction 1 as [|s op _ [Hloc [Hnd Hcap]] Hen _].
  - repeat split; simpl; [|discriminate]. unfold webhook_list, list_at; simpl.
    rewrite lookup_singleton_eq. constructor.
  - unfold service_inv, webhook_list, list_at in *.
    destruct op as [u|i q now| |acq now|img now|url|url|b|f|j nets]; simpl.
    + unfold update_config. pose proof (update_config_body_urls u s.(config)) as Hu.
      destruct (update_config_body u s.(config)) as [[e|[]] c'] eqn:E;
        simpl in *; rewrite Hu; auto.
    + unfold start_capture.
      destruct (capture_library s) eqn:Hl; [|simpl; rewrite Hl; auto].
      destruct (capturing s) eqn:Hc; [simpl; auto|].
      destruct i as [vi|]; [destruct (py_float vi)|];
        (destruct q as [vq|]; [destruct (py_int vq)|]); simpl;
        repeat split; auto; intros; eauto.
    + unfold stop_capture. destruct (capturing s) eqn:Hc; simpl; rewrite ?Hc; auto.
    + unfold tick. destruct (capture_screenshot _ _ _) as [image|]; simpl; auto.
      case_match.
      * destruct (send_to_external_systems_inv
          (process_image (config s) now image)
          (set_stats (incr_total (stats s))
             (publish (process_image (config s) now image) (iso_format now) s)))
          as (-> & -> & -> & ->). simpl. auto.
      * simpl. auto.
    + unfold feed_external_image. simpl. case_match; simpl.
      * destruct (send_to_external_systems_inv
          (process_image (config s) now img)
          (set_stats (incr_total (stats s))
             (publish (process_image (config s) now img) (iso_format now) s)))
          as (-> & -> & -> & ->). simpl. auto.
      * auto.
    + unfold add_webhook_url, webhook_list, list_at.
      case_bool_decide as Hin; simpl; [auto|].
      unfold py_list_append, list_at. rewrite Hloc in *. simpl.
      repeat split; auto. rewrite lookup_insert_eq; simpl.
      apply NoDup_app. repeat split; auto.
      * intros x Hx Hx'. apply list_elem_of_singleton in Hx'. subst. done.
      * apply NoDup_singleton.
    + unfold remove_webhook_url, webhook_list, list_at.
      case_bool_decide as Hin; simpl; [|auto].
      rewrite Hloc in *. repeat split; auto.
      rewrite lookup_insert_eq; simpl.
      eapply sublist_NoDup; [done|apply py_list_remove_sublist].
    + auto.
    + unfold set_external_format. case_bool_decide; simpl; auto.
    + auto.
Qed.

Lemma update_config_body_spec (u : Update) (c : Config) :
  match first_invalid u with
  | Some _ => exists e, update_config_body u c = (inl e, apply_valid_prefix u display_keys c)
  | None => update_config_body u c = (inr tt, apply_valid_prefix u display_keys c)
  end.
Proof.
  unfold first_invalid, field_valid, apply_valid_prefix, display_keys.
  unfold validated_field, Qlt_bool; simpl.
  unfold_cfgm.
  repeat (case_match; simplify_eq/=); eauto.
  all: exfalso; repeat match goal with
    | H : (_ <=? _) = false |- _ => apply Z.leb_gt in H
    | H : (_ <? _) = false |- _ => apply Z.ltb_ge in H
    end; lia.
Qed.

Lemma apply_valid_prefix_nothing_before (keys : list string) (u : Update)
    (k : string) (c : Config) :
  List.find (fun k => match u !! k with
                      | Some v => negb (field_valid k v)
                      | None => false
                      end) keys = Some k ->
  (forall key, key ∈ keys_before k keys -> u !! key = None) ->
  apply_valid_prefix u keys c = c.
Proof.
  induction keys as [|k0 t IH]; simpl; [discriminate|].
  intros Hf Hb.
  destruct (u !! k0) as [v|] eqn:Hu.
  - destruct (negb (field_valid k0 v)) eqn:Hv.
    + unfold field_valid in Hv. destruct (validated_field k0 v); done.
    + destruct (String.eqb k0 k) eqn:Hk.
      * apply String.eqb_eq in Hk; subst k0.
        apply List.find_some in Hf as [_ Hf]. rewrite Hu, Hv in Hf. discriminate.
      * rewrite (Hb k0) in Hu; [discriminate|]. left.
  - destruct (String.eqb k0 k) eqn:Hk.
    + apply String.eqb_eq in Hk; subst k0.
      apply List.find_some in Hf as [_ Hf]. rewrite Hu in Hf. discriminate.
    + apply IH; [done|]. intros key Hkey. apply Hb. by right.
Qed.

(** ** C1: an invalid partial update *)




(** ** C5: a valid partial update *)




(** ** C10: webhook targets *)

Lemma filter_eq_absent (l : list string) (x : string) :
  x ∉ l -> filter (fun y => y = x) l = [].
Proof.
  induction l as [|y t IH]; intros Hx; [done|].
  rewrite filter_cons_False.
  - apply IH. intros H. apply Hx. by right.
  - intros ->. apply Hx. by left.
Qed.

Lemma filter_eq_NoDup_length (l : list string) (x : string) :
  NoDup l -> x ∈ l -> length (filter (fun y => y = x) l) = 1%nat.
Proof.
  induction l as [|y t IH]; intros Hnd Hx; [by apply elem_of_nil in Hx|].
  apply NoDup_cons in Hnd as [Hy Hnd]. rewrite filter_cons.
  apply elem_of_cons in Hx as [->|Hx].
  - rewrite decide_True by done. simpl. f_equal.
    by rewrite filter_eq_absent.
  - rewrite decide_False by (intros ->; done). by apply IH.
Qed.

Lemma py_list_remove_split (x : string) (l : list string) :
  x ∈ l -> exists l1 l2, l = l1 ++ x :: l2 /\ (x ∉ l1) /\ py_list_remove x l = l1 ++ l2.
Proof.
  induction l as [|y t IH]; intros Hx; [by apply elem_of_nil in Hx|].
  simpl. destruct (String.eqb x y) eqn:E.
  - apply String.eqb_eq in E as ->. exists [], t. split; [done|]. split; [|done].
    apply not_elem_of_nil.
  - apply String.eqb_neq in E.
    apply elem_of_cons in Hx as [->|Hx]; [done|].
    destruct (IH Hx) as (l1 & l2 & -> & Hn & ->).
    exists (y :: l1), l2. split; [done|]. split; [|done].
    rewrite elem_of_cons. intros [->|?]; done.
Qed.

(** C10. In every reachable state, the webhook target list behaves as a
    duplicate-free, insertion-ordered set: adding a present URL is a
    reported no-op (the state is unchanged, the URL occurs exactly once);
    adding an absent URL appends it and reports true; removing an absent
    URL is a reported no-op; removing a present URL deletes exactly that
    entry and reports true. *)
Theorem webhook_targets_are_a_set (lib : option CaptureLib) (s : State)
    (url : string) (Hr : reachable lib s) :
  (url ∈ webhook_list s ->
     add_webhook_url url s = (s, false) /\
     length (filter (fun y => y = url) (webhook_list s)) = 1%nat) /\
  (url ∉ webhook_list s ->
     snd (add_webhook_url url s) = true /\
     webhook_list (fst (add_webhook_url url s)) = webhook_list s ++ [url]) /\
  (url ∉ webhook_list s -> remove_webhook_url url s = (s, false)) /\
  (url ∈ webhook_list s ->
     snd (remove_webhook_url url s) = true /\
     exists l1 l2, webhook_list s = l1 ++ url :: l2 /\
                   webhook_list (fst (remove_webhook_url url s)) = l1 ++ l2 /\
                   url ∉ l1 ++ l2).
Proof.
  destruct (reachable_by_inv _ _ _ Hr) as (Hloc & Hnd & _).
  unfold add_webhook_url, remove_webhook_url.
  split; [|split; [|split]]; intros Hin.
  - rewrite bool_decide_eq_true_2 by done. split; [done|].
    by apply filter_eq_NoDup_length.
  - rewrite bool_decide_eq_false_2 by done. split; [done|].
    unfold py_list_append, webhook_list, list_at; simpl.
    by rewrite lookup_insert_eq.
  - by rewrite bool_decide_eq_false_2.
  - rewrite bool_decide_eq_true_2 by done. split; [done|].
    destruct (py_list_remove_split url (webhook_list s) Hin)
      as (l1 & l2 & Hl & Hn1 & Hr').
    exists l1, l2. split; [done|]. split.
    + unfold webhook_list at 1, list_at; simpl. rewrite lookup_insert_eq. done.
    + rewrite Hl in Hnd. apply NoDup_app in Hnd as (_ & Hd & Hnd2).
      apply NoDup_cons in Hnd2 as [Hn2 _].
      rewrite elem_of_app. intros [?|?]; done.
Qed.

Lemma webhook_targets_are_a_set_witness :
  reachable (Some Mss) (fst (add_webhook_url "http://a" (init_state (Some Mss)))) /\
  add_webhook_url "http://a" (fst (add_webhook_url "http://a" (init_state (Some Mss))))
  = (fst (add_webhook_url "http://a" (init_state (Some Mss))), false).
Proof.
  assert (Hr : reachable (Some Mss)
                 (fst (add_webhook_url "http://a" (init_state (Some Mss))))).
  { apply (rb_step _ _ _ (OpAddUrl "http://a")); [apply rb_init|exact I|exact I]. }
  split; [exact Hr|].
  apply (webhook_targets_are_a_set _ _ "http://a" Hr).
  vm_compute. left.
Defined.

(** ** C9: lifecycle misuse *)

(** C9. In every reachable state, [start_capture] on a running service
    returns success and changes nothing (statistics, configuration, last
    error included, whatever overrides are passed), and [stop_capture] on
    an idle service returns normally and changes nothing. *)
Theorem lifecycle_misuse_is_noop (lib : option CaptureLib) (s : State)
    (Hr : reachable lib s) :
  (s.(capturing) = true ->
     forall interval_arg quality_arg now,
       start_capture interval_arg quality_arg now s = (s, inr true)) /\
  (s.(capturing) = false -> stop_capture s = s).
Proof.
  destruct (reachable_by_inv _ _ _ Hr) as (_ & _ & Hcap).
  split; intros Hc.
  - intros i q now. unfold start_capture.
    destruct (Hcap Hc) as [l ->]. by rewrite Hc.
  - unfold stop_capture. by rewrite Hc.
Qed.

Lemma lifecycle_misuse_is_noop_witness :
  reachable (Some Mss) (fst (start_capture None None now0 (init_state (Some Mss)))) /\
  start_capture (Some (PyInt 5)) None now0
    (fst (start_capture None None now0 (init_state (Some Mss))))
  = (fst (start_capture None None now0 (init_state (Some Mss))), inr true).
Proof.
  assert (Hr : reachable (Some Mss)
                 (fst (start_capture None None now0 (init_state (Some Mss))))).
  { apply (rb_step _ _ _ (OpStart None None now0)); [apply rb_init|exact I|exact I]. }
  split; [exact Hr|].
  apply (lifecycle_misuse_is_noop _ _ Hr); reflexivity.
Defined.

(** ** C8: feeding an external frame *)



(** ** C3: acquisition failure *)




(** ** C6: [get_config] snapshots *)

(** C6 (code defect).  [get_config] is a shallow [dict.copy()]: the
    [webhook_urls] entry of the snapshot is the service's own list, so a
    caller appending to it changes what a later [get_config] (and the
    delivery fan-out) sees. *)
Theorem get_config_shares_webhook_list :
  let s := init_state (Some Mss) in
  let snapshot := get_config s in
  let s' := py_list_append snapshot.(webhook_urls) "http://example.com/hook" s in
  list_at s (get_config s).(webhook_urls) = [] /\
  list_at s' (get_config s').(webhook_urls) = ["http://example.com/hook"] /\
  webhook_list s' = ["http://example.com/hook"].
Proof. vm_compute. repeat split. Qed.

(** ** C4: configuration ranges *)

Lemma validated_field_in_range (key : string) (v : PyVal) (f : Config -> Config)
    (c : Config) :
  validated_field key v = Some f -> config_in_range c -> config_in_range (f c).
Proof.
  unfold validated_field, config_in_range, Qlt_bool.
  intros Hf (Hi & Hq & Hr & Hm).
  repeat (case_match; simplify_eq/=); repeat split; try done; try lia.
  all: match goal with
       | H : negb (Qle_bool ?q 0) = true |- _ =>
           apply negb_true_iff in H; apply Qnot_le_lt; intros Hle;
           apply Qle_bool_iff in Hle; congruence
       end.
Qed.

Lemma apply_valid_prefix_in_range (u : Update) (keys : list string) (c : Config) :
  config_in_range c -> config_in_range (apply_valid_prefix u keys c).
Proof.
  revert c. induction keys as [|k t IH]; intros c Hc; simpl; [done|].
  destruct (u !! k) as [v|]; [|by apply IH].
  destruct (validated_field k v) as [f|] eqn:Hf; [|done].
  apply IH. by eapply validated_field_in_range.
Qed.

Lemma update_config_in_range (u : Update) (s : State) :
  config_in_range s.(config) -> config_in_range (fst (update_config u s)).(config).
Proof.
  intros Hc. pose proof (update_config_body_spec u s.(config)) as Hspec.
  unfold update_config.
  destruct (first_invalid u).
  - destruct Hspec as [e ->].
    exact (apply_valid_prefix_in_range u display_keys _ Hc).
  - rewrite Hspec. exact (apply_valid_prefix_in_range u display_keys _ Hc).
Qed.




(** ** C2: the delivery ladder *)

Lemma scale_dim_1 (d : Z) : scale_dim d 1 = d.
Proof. unfold scale_dim, py_trunc. simpl. rewrite Z.mul_1_r. apply Z.quot_1_r. Qed.

Theorem base64_ladder_spec (cfg : Config) (img : Image) (url : string)
    (net : Network) (Hf : cfg.(external_format) = "base64") :
  ladder_claim cfg img url net (send_image_to_url cfg img url net).
Proof.
  unfold send_image_to_url. rewrite Hf. simpl.
  repeat case_match; simplify_eq/=.
  all: repeat match goal with
    | H : (_ =? _) = true |- _ => apply Z.eqb_eq in H; subst
    | H : (_ =? _) = false |- _ => apply Z.eqb_neq in H
    end.
  all: split; [simpl; lia|].
  all: split; [intros i req Hi; destruct i as [|[|[|i]]]; simpl in Hi; simplify_eq;
               unfold rung_request; simpl; rewrite ?scale_dim_1; done|].
  all: split; [intros i Hi; destruct i as [|[|[|i]]]; simpl in Hi; try lia; done|].
  all: split; [intros i Hi Hn; destruct i as [|[|[|i]]]; simpl in Hi; try lia;
               try congruence; (split; [done|eauto])|].
  all: intros i Hi Hn; destruct i as [|[|[|i]]]; simpl in Hi; try lia;
    repeat match goal with
      | H : ?r = Status _ |- context [?r] => rewrite H
      | H : ?r = ConnFailure |- context [?r] => rewrite H
      end;
    simpl; repeat match goal with H : is_http_error _ = _ |- _ => rewrite H end;
    simpl; split; intros; congruence.
Qed.

Lemma send_async_loop_per_target (cfg : Config) (img : Image) (urls : list string)
    (nets : string -> Network) (err : option string) :
  fst (send_async_loop cfg img urls nets err) =
  map (fun url => let '(reqs, res) := send_image_to_url cfg img url (nets url) in
                  (url, reqs, res)) urls.
Proof.
  revert err. induction urls as [|url t IH]; intros err; simpl; [done|].
  destruct (send_image_to_url cfg img url (nets url)) as [reqs res].
  destruct (send_async_loop cfg img t nets _) as [outs err''] eqn:E.
  simpl. f_equal. specialize (IH (match res with
                                  | inl e => Some (String.append "Webhook send failed to "
                                       (String.append url (String.append ": " (exn_msg e))))
                                  | inr _ => err end)).
  rewrite E in IH. exact IH.
Qed.




(** ** C7: the pre-delivery shrink *)

(** Python's [min] on floats agrees with [Qmin]. *)
Lemma py_min_Qmin (a b : Q) : py_min a b = Qmin a b.
Proof.
  unfold py_min, Qlt_bool, Qmin, GenericMinMax.gmin.
  destruct (a ?= b)%Q eqn:E.
  - apply Qeq_alt in E.
    assert (Hle : Qle_bool a b = true) by (apply Qle_bool_iff; rewrite E; apply Qle_refl).
    rewrite Hle. reflexivity.
  - apply Qlt_alt in E.
    assert (Hle : Qle_bool a b = true) by (apply Qle_bool_iff; apply Qlt_le_weak, E).
    rewrite Hle. reflexivity.
  - apply Qgt_alt in E.
    destruct (Qle_bool a b) eqn:Hle; [|reflexivity].
    apply Qle_bool_iff in Hle. exfalso. exact (Qlt_not_le _ _ E Hle).
Qed.

Lemma Qlt_bool_true (a b : Q) : Qlt_bool a b = true <-> (a < b)%Q.
Proof.
  unfold Qlt_bool. destruct (Qle_bool b a) eqn:E; simpl; split; intros H; try done.
  - apply Qle_bool_iff in E. exfalso. exact (Qlt_not_le _ _ H E).
  - apply Qnot_le_lt. intros H'. apply Qle_bool_iff in H'. congruence.
Qed.

Lemma py_trunc_bounds (q : Q) :
  (0 <= q)%Q -> (inject_Z (py_trunc q) <= q /\ q < inject_Z (py_trunc q) + 1)%Q.
Proof.
  intros Hq. destruct q as [n d]. unfold py_trunc. simpl Qnum. simpl Qden.
  assert (0 <= n) by (unfold Qle in Hq; simpl in Hq; lia).
  rewrite Z.quot_div_nonneg by lia.
  pose proof (Qfloor_le (n # d)) as H1. pose proof (Qlt_floor (n # d)) as H2.
  unfold Qfloor in H1, H2. rewrite inject_Z_plus in H2. auto.
Qed.

Lemma Q_of_Z_nonneg (z : Z) : 0 <= z -> (0 <= inject_Z z)%Q.
Proof. intros H. change 0%Q with (inject_Z 0). rewrite <- Zle_Qle. exact H. Qed.

Lemma Q_of_Z_pos (z : Z) : 0 < z -> (0 < inject_Z z)%Q.
Proof. intros H. change 0%Q with (inject_Z 0). rewrite <- Zlt_Qlt. exact H. Qed.

Lemma scale_dim_bounds (d : Z) (f : Q) :
  0 <= d -> (0 <= f)%Q ->
  (inject_Z (scale_dim d f) <= inject_Z d * f < inject_Z (scale_dim d f) + 1)%Q.
Proof.
  intros Hd Hf. unfold scale_dim. apply py_trunc_bounds.
  apply Qmult_le_0_compat; [apply Q_of_Z_nonneg; exact Hd | exact Hf].
Qed.

Lemma scale_dim_le (d m : Z) (f : Q) :
  0 <= d -> (0 <= f)%Q -> (inject_Z d * f <= inject_Z m)%Q -> scale_dim d f <= m.
Proof.
  intros Hd Hf Hm. destruct (scale_dim_bounds d f Hd Hf) as [H _].
  rewrite Zle_Qle. eapply Qle_trans; eauto.
Qed.

Lemma ratio_pos (a b : Z) : 0 < a -> 0 < b -> (0 < inject_Z a / inject_Z b)%Q.
Proof.
  intros Ha Hb. apply Qlt_shift_div_l; [apply Q_of_Z_pos; exact Hb|].
  rewrite Qmult_0_l. apply Q_of_Z_pos. exact Ha.
Qed.

Lemma ratio_lt_1 (a b : Z) : 0 < b -> a < b -> (inject_Z a / inject_Z b < 1)%Q.
Proof.
  intros Hb Hab. apply Qlt_shift_div_r; [apply Q_of_Z_pos; exact Hb|].
  rewrite Qmult_1_l. rewrite <- Zlt_Qlt. exact Hab.
Qed.

Lemma ratio_ge_1 (a b : Z) : 0 < b -> b <= a -> (1 <= inject_Z a / inject_Z b)%Q.
Proof.
  intros Hb Hab. apply Qle_shift_div_l; [apply Q_of_Z_pos; exact Hb|].
  rewrite Qmult_1_l. rewrite <- Zle_Qle. exact Hab.
Qed.

Lemma mul_ratio (d m : Z) : 0 < d -> (inject_Z d * (inject_Z m / inject_Z d) == inject_Z m)%Q.
Proof.
  intros Hd. field. intros E. unfold Qeq in E. simpl in E. lia.
Qed.

Lemma scale_by_ratio_le (d m : Z) (f : Q) :
  0 < d -> (0 <= f)%Q -> (f <= inject_Z m / inject_Z d)%Q -> scale_dim d f <= m.
Proof.
  intros Hd Hf Hle. apply scale_dim_le; [lia|exact Hf|].
  rewrite <- (mul_ratio d m Hd). apply Qmult_le_l; [apply Q_of_Z_pos; exact Hd|exact Hle].
Qed.



(** * Further properties of the service and of the HTTP routes *)

(** ** Extra properties: settings no operation can change *)

Lemma validated_field_fixed (key : string) (v : PyVal) (f : Config -> Config)
    (c : Config) :
  validated_field key v = Some f -> fixed_settings c -> fixed_settings (f c).
Proof.
  unfold validated_field, fixed_settings, Qlt_bool.
  intros Hf (H1 & H2 & H3 & H4 & H5).
  repeat (case_match; simplify_eq/=); repeat split; try done.
  all: match goal with
       | H : negb (Qle_bool ?q 0) = true |- _ =>
           apply negb_true_iff in H; apply Qnot_le_lt; intros Hle;
           apply Qle_bool_iff in Hle; congruence
       end.
Qed.

Lemma apply_valid_prefix_fixed (u : Update) (keys : list string) (c : Config) :
  fixed_settings c -> fixed_settings (apply_valid_prefix u keys c).
Proof.
  revert c. induction keys as [|k t IH]; intros c Hc; simpl; [done|].
  destruct (u !! k) as [v|]; [|by apply IH].
  destruct (validated_field k v) as [f|] eqn:Hf; [|done].
  apply IH. by eapply validated_field_fixed.
Qed.

Lemma update_config_fixed (u : Update) (s : State) :
  fixed_settings s.(config) -> fixed_settings (fst (update_config u s)).(config).
Proof.
  intros Hc. pose proof (update_config_body_spec u s.(config)) as Hspec.
  unfold update_config.
  destruct (first_invalid u).
  - destruct Hspec as [e ->]. exact (apply_valid_prefix_fixed u display_keys _ Hc).
  - rewrite Hspec. exact (apply_valid_prefix_fixed u display_keys _ Hc).
Qed.

Lemma start_capture_fixed (i q : option PyVal) (now : Now) (s : State) :
  fixed_settings s.(config) ->
  fixed_settings (fst (start_capture i q now s)).(config).
Proof.
  unfold start_capture, fixed_settings. intros H.
  repeat (case_match; simplify_eq/=); done.
Qed.

Lemma fixed_settings_reachable (allowed : Op -> Prop) (lib : option CaptureLib)
    (s : State) :
  reachable_by allowed lib s -> fixed_settings s.(config).
Proof.
  induction 1 as [|s op Hr IH Hen _].
  - unfold fixed_settings; simpl.
    split; [reflexivity|]. split; [reflexivity|]. split; [reflexivity|].
    split; [reflexivity|set_solver].
  - destruct op as [u|i q now| |acq now|img now|url|url|b|f|j nets]; simpl.
    + by apply update_config_fixed.
    + by apply start_capture_fixed.
    + unfold stop_capture. by destruct (capturing s).
    + unfold tick. destruct (capture_screenshot _ _ _) as [image|]; simpl; [|done].
      case_match; [|done].
      by rewrite (proj1 (send_to_external_systems_inv _ _)).
    + unfold feed_external_image. simpl. case_match; simpl; [|done].
      by rewrite (proj1 (send_to_external_systems_inv _ _)).
    + unfold add_webhook_url. by case_bool_decide.
    + unfold remove_webhook_url. by case_bool_decide.
    + exact IH.
    + unfold set_external_format. case_bool_decide as Hf; [|done].
      unfold fixed_settings in *; simpl. intuition.
    + exact IH.
Qed.





(** X4.  The base64 quality ladder [webhook_quality; max(q-20, 30);
    max(q-40, 20)]: its second and third rungs are at least 30 and 20, the
    third never above the second, and the whole ladder is non-increasing
    exactly when the webhook quality is at least 30 (below that the second
    attempt raises the quality). *)
Theorem quality_levels_shape (wq : Z) :
  (exists q1 q2, quality_levels wq = [wq; q1; q2] /\
                 30 <= q1 /\ 20 <= q2 /\ q2 <= q1) /\
  (30 <= wq <->
   forall i j qi qj, (i <= j)%nat ->
     quality_levels wq !! i = Some qi -> quality_levels wq !! j = Some qj ->
     qj <= qi).
Proof.
  unfold quality_levels. split.
  - eexists _, _. split; [reflexivity|]. lia.
  - split.
    + intros Hq i j qi qj Hij Hi Hj.
      destruct i as [|[|[|i]]]; destruct j as [|[|[|j]]]; simpl in *;
        simplify_eq; lia.
    + intros H. specialize (H 0%nat 1%nat wq (Z.max (wq - 20) 30)).
      assert (Hle : Z.max (wq - 20) 30 <= wq) by (apply H; [lia|done|done]).
      lia.
Qed.

(** ** Extra properties: [update_config] *)

Lemma update_config_body_idem (u : Update) (c : Config) :
  update_config_body u (snd (update_config_body u c)) = update_config_body u c.
Proof. unfold_cfgm. repeat (case_match; simplify_eq/=); done. Qed.

(** X5.  [update_config] is idempotent: sending the same update twice
    gives the same result, state and error message as sending it once,
    whether the update is valid or not. *)
Theorem update_config_idempotent (u : Update) (s : State) :
  update_config u (fst (update_config u s)) = update_config u s.
Proof.
  unfold update_config.
  pose proof (update_config_body_idem u s.(config)) as Hi.
  destruct (update_config_body u s.(config)) as [r c'] eqn:E. simpl in Hi.
  destruct r as [e|[]]; simpl; rewrite Hi; reflexivity.
Qed.

(** ** Extra properties: delivery jobs *)

Lemma py_trunc_nonneg (q : Q) : (0 <= q)%Q -> 0 <= py_trunc q.
Proof.
  destruct q as [n d]. unfold py_trunc, Qle; simpl. intros H.
  apply Z.quot_pos; lia.
Qed.

Lemma scale_dim_nonneg (d : Z) (f : Q) : 0 <= d -> (0 <= f)%Q -> 0 <= scale_dim d f.
Proof.
  intros Hd Hf. unfold scale_dim. apply py_trunc_nonneg.
  apply Qmult_le_0_compat; [apply Q_of_Z_nonneg; exact Hd|exact Hf].
Qed.

Lemma process_image_dims_nonneg (cfg : Config) (now : Now) (img : Image) :
  (0 <= cfg.(resize_factor))%Q -> image_dims_nonneg img ->
  image_dims_nonneg (process_image cfg now img).
Proof.
  unfold process_image, image_dims_nonneg. intros Hr [Hw Hh].
  destruct (negb (Qeq_bool (resize_factor cfg) 1)), (add_timestamp cfg); simpl;
    split; try apply scale_dim_nonneg; assumption.
Qed.

Lemma capture_screenshot_dims_nonneg (lib : option CaptureLib) (acq : Acquisition)
    (now : Now) (image : Image) :
  op_frames_nonneg (OpTick acq now) ->
  capture_screenshot lib acq now = Some image -> image_dims_nonneg image.
Proof.
  unfold capture_screenshot, op_frames_nonneg, image_dims_nonneg.
  destruct lib, acq; intros H E; simplify_eq/=; try done; split; simpl; lia.
Qed.

Lemma bound_factor (w m : Z) :
  0 <= w -> 0 < m ->
  let f := if m <? w then (inject_Z m / inject_Z w)%Q else 1%Q in
  (0 <= f)%Q /\ (inject_Z w * f <= inject_Z m)%Q /\ (m < w -> (f < 1)%Q).
Proof.
  intros Hw Hm f. unfold f. destruct (m <? w) eqn:E.
  - apply Z.ltb_lt in E.
    split; [apply Qlt_le_weak, ratio_pos; lia|].
    split; [rewrite mul_ratio by lia; apply Qle_refl|].
    intros _. apply ratio_lt_1; lia.
  - apply Z.ltb_ge in E.
    split; [unfold Qle; simpl; lia|].
    split; [rewrite Qmult_1_r, <- Zle_Qle; exact E|lia].
Qed.

Lemma optimize_within_bounds (cfg : Config) (img : Image) :
  image_dims_nonneg img ->
  0 < cfg.(webhook_max_width) -> 0 < cfg.(webhook_max_height) ->
  image_dims_nonneg (optimize_image_for_webhook cfg img) /\
  (optimize_image_for_webhook cfg img).(width) <= cfg.(webhook_max_width) /\
  (optimize_image_for_webhook cfg img).(height) <= cfg.(webhook_max_height).
Proof.
  intros [Hw Hh] Hmw Hmh. unfold optimize_image_for_webhook, image_dims_nonneg.
  destruct (bound_factor _ _ Hw Hmw) as (Hw0 & Hw1 & Hw2).
  destruct (bound_factor _ _ Hh Hmh) as (Hh0 & Hh1 & Hh2).
  set (wf := if webhook_max_width cfg <? width img
             then (inject_Z (webhook_max_width cfg) / inject_Z (width img))%Q
             else 1%Q) in *.
  set (hf := if webhook_max_height cfg <? height img
             then (inject_Z (webhook_max_height cfg) / inject_Z (height img))%Q
             else 1%Q) in *.
  rewrite py_min_Qmin.
  assert (Hm0 : (0 <= Qmin wf hf)%Q) by (apply Q.min_glb; assumption).
  destruct (Qlt_bool (Qmin wf hf) 1) eqn:Hlt; simpl.
  - split; [split; apply scale_dim_nonneg; assumption|]. split.
    + apply scale_dim_le; [exact Hw|exact Hm0|].
      eapply Qle_trans; [|exact Hw1].
      rewrite !(Qmult_comm (inject_Z (width img))).
      apply Qmult_le_compat_r; [apply Q.le_min_l|apply Q_of_Z_nonneg; exact Hw].
    + apply scale_dim_le; [exact Hh|exact Hm0|].
      eapply Qle_trans; [|exact Hh1].
      rewrite !(Qmult_comm (inject_Z (height img))).
      apply Qmult_le_compat_r; [apply Q.le_min_r|apply Q_of_Z_nonneg; exact Hh].
  - split; [split; assumption|]. split.
    + destruct (Z.le_gt_cases (width img) (webhook_max_width cfg)) as [H|H]; [exact H|].
      exfalso. assert (Hl : (Qmin wf hf < 1)%Q).
      { eapply Qle_lt_trans; [apply Q.le_min_l|]. apply Hw2. lia. }
      apply Qlt_bool_true in Hl. congruence.
    + destruct (Z.le_gt_cases (height img) (webhook_max_height cfg)) as [H|H]; [exact H|].
      exfalso. assert (Hl : (Qmin wf hf < 1)%Q).
      { eapply Qle_lt_trans; [apply Q.le_min_r|]. apply Hh2. lia. }
      apply Qlt_bool_true in Hl. congruence.
Qed.

Lemma send_to_external_systems_threads (img : Image) (s : State) :
  (send_to_external_systems img s).(delivery_threads) = s.(delivery_threads) \/
  (webhook_list s <> [] /\
   (send_to_external_systems img s).(delivery_threads) =
     s.(delivery_threads) ++
       [mkJob s.(config).(webhook_urls) (optimize_image_for_webhook s.(config) img)]).
Proof.
  unfold send_to_external_systems. destruct (webhook_list s) eqn:E; [by left|].
  right. split; [done|reflexivity].
Qed.

(** Which operations start a delivery thread, and with what. *)
Lemma exec_op_threads (op : Op) (s : State) :
  (exec_op op s).(delivery_threads) = s.(delivery_threads) \/
  (s.(config).(send_to_external) = true /\ webhook_list s <> [] /\
   exists img,
     (exec_op op s).(delivery_threads) =
       s.(delivery_threads) ++
         [mkJob s.(config).(webhook_urls) (optimize_image_for_webhook s.(config) img)] /\
     ((exists acq now image, op = OpTick acq now /\
         capture_screenshot s.(capture_library) acq now = Some image /\
         img = process_image s.(config) now image) \/
      (exists image now, op = OpFeed image now /\
         img = process_image s.(config) now image))).
Proof.
  destruct op as [u|i q now| |acq now|image now|url|url|b|f|j nets]; simpl.
  - left. unfold update_config. by destruct (update_config_body u (config s)) as [[]].
  - left. unfold start_capture. repeat (case_match; simplify_eq/=); done.
  - left. unfold stop_capture. by destruct (capturing s).
  - unfold tick. destruct (capture_screenshot _ acq now) as [image|] eqn:Ecap; [|by left].
    simpl. destruct (send_to_external (config s)) eqn:Ext; [|by left].
    destruct (send_to_external_systems_threads (process_image (config s) now image)
                (set_stats (incr_total (stats s))
                   (publish (process_image (config s) now image) (iso_format now) s)))
      as [H|[Hne H]]; [by left|].
    right. split; [done|]. split; [exact Hne|].
    exists (process_image (config s) now image). split; [exact H|].
    left. eauto 6.
  - unfold feed_external_image. simpl.
    destruct (send_to_external (config s)) eqn:Ext; simpl; [|by left].
    destruct (send_to_external_systems_threads (process_image (config s) now image)
                (set_stats (incr_total (stats s))
                   (publish (process_image (config s) now image) (iso_format now) s)))
      as [H|[Hne H]]; [by left|].
    right. split; [done|]. split; [exact Hne|].
    exists (process_image (config s) now image). split; [exact H|].
    right. eauto.
  - left. unfold add_webhook_url. by case_bool_decide.
  - left. unfold remove_webhook_url. by case_bool_decide.
  - by left.
  - left. unfold set_external_format. by case_bool_decide.
  - by left.
Qed.

(** X3.  Every delivery thread started in a reachable state (frames of
    non-negative size) carries an image of at most 1280 x 720 pixels. *)
Theorem delivery_jobs_fit_bounds (lib : option CaptureLib) (s : State)
    (Hr : reachable_by op_frames_nonneg lib s) :
  forall j, j ∈ s.(delivery_threads) ->
    0 <= j.(job_image).(width) <= 1280 /\ 0 <= j.(job_image).(height) <= 720.
Proof.
  induction Hr as [|s op Hr IH Hen Hallow].
  - intros j Hj. simpl in Hj. apply elem_of_nil in Hj. done.
  - destruct (fixed_settings_reachable _ _ _ Hr) as (_ & Hmw & Hmh & Hrf & _).
    intros j Hj.
    destruct (exec_op_threads op s) as [E|(_ & _ & img & E & Hsrc)];
      rewrite E in Hj; [by apply IH|].
    apply elem_of_app in Hj as [Hj|Hj]; [by apply IH|].
    apply list_elem_of_singleton in Hj. subst j. simpl.
    assert (Himg : image_dims_nonneg img).
    { destruct Hsrc as [(acq & now & image & -> & Ecap & ->)|(image & now & -> & ->)].
      - apply process_image_dims_nonneg; [by apply Qlt_le_weak|].
        exact (capture_screenshot_dims_nonneg _ _ _ _ Hallow Ecap).
      - apply process_image_dims_nonneg; [by apply Qlt_le_weak|]. exact Hallow. }
    destruct (optimize_within_bounds (config s) img Himg ltac:(lia) ltac:(lia))
      as ([H1 H2] & H3 & H4).
    lia.
Qed.

Lemma delivery_jobs_fit_bounds_witness :
  let s := fst (feed_external_image (mkImage 3840 2160 []) now0
                  (fst (add_webhook_url "http://a"
                     (enable_external_sending true (init_state (Some Mss)))))) in
  reachable_by op_frames_nonneg (Some Mss) s /\
  (forall j, j ∈ s.(delivery_threads) ->
    0 <= j.(job_image).(width) <= 1280 /\ 0 <= j.(job_image).(height) <= 720).
Proof.
  intros s.
  assert (Hr : reachable_by op_frames_nonneg (Some Mss) s).
  { apply (rb_step _ _ _ (OpFeed (mkImage 3840 2160 []) now0));
      [|exact I|split; simpl; lia].
    apply (rb_step _ _ _ (OpAddUrl "http://a")); [|exact I|exact I].
    apply (rb_step _ _ _ (OpEnableExternal true)); [apply rb_init|exact I|exact I]. }
  split; [exact Hr|]. exact (delivery_jobs_fit_bounds _ _ Hr).
Defined.


Lemma job_urls_reachable (allowed : Op -> Prop) (lib : option CaptureLib) (s : State) :
  reachable_by allowed lib s ->
  forall j, j ∈ s.(delivery_threads) -> j.(job_urls) = s.(config).(webhook_urls).
Proof.
  intros Hr. pose proof (reachable_by_inv _ _ _ Hr) as [Hloc _].
  rewrite Hloc. clear Hloc.
  induction Hr as [|s op Hr IH Hen _].
  - intros j Hj. simpl in Hj. apply elem_of_nil in Hj. done.
  - destruct (reachable_by_inv _ _ _ Hr) as [Hloc _].
    intros j Hj.
    destruct (exec_op_threads op s) as [E|(_ & _ & img & E & _)];
      rewrite E in Hj; [by apply IH|].
    apply elem_of_app in Hj as [Hj|Hj]; [by apply IH|].
    apply list_elem_of_singleton in Hj. subst j. exact Hloc.
Qed.

Lemma send_async_loop_targets (cfg : Config) (img : Image) (urls : list string)
    (nets : string -> Network) (err : option string) :
  map (fun x => fst (fst x)) (fst (send_async_loop cfg img urls nets err)) = urls.
Proof.
  revert err. induction urls as [|u t IH]; intros err; simpl; [done|].
  destruct (send_image_to_url cfg img u (nets u)) as [reqs res].
  match goal with |- context [send_async_loop cfg img t nets ?e] =>
    specialize (IH e); destruct (send_async_loop cfg img t nets e) as [outs e'] end.
  simpl in *. by rewrite IH.
Qed.

(** X7.  A delivery thread works on the service's live webhook list: in
    any later reachable state, running it sends to exactly the URLs the
    list holds then, in order, including URLs added after the thread was
    started and without those removed since. *)
Theorem delivery_targets_live_list (lib : option CaptureLib) (s : State)
    (Hr : reachable lib s) (j : Job) (Hj : j ∈ s.(delivery_threads))
    (nets : string -> Network) (err : option string) :
  map (fun x => fst (fst x))
    (fst (send_async_loop s.(config) j.(job_image) (list_at s j.(job_urls)) nets err))
  = webhook_list s.
Proof.
  rewrite send_async_loop_targets. unfold webhook_list.
  by rewrite (job_urls_reachable _ _ _ Hr j Hj).
Qed.

Lemma delivery_targets_live_list_witness :
  let s0 := fst (feed_external_image (mkImage 800 600 []) now0
                  (fst (add_webhook_url "http://a"
                     (enable_external_sending true (init_state (Some Mss)))))) in
  let s := fst (add_webhook_url "http://b" s0) in
  reachable (Some Mss) s /\
  mkJob init_urls_loc (optimize_image_for_webhook s.(config)
     (process_image s.(config) now0 (mkImage 800 600 []))) ∈ s.(delivery_threads) /\
  map (fun x => fst (fst x))
    (fst (send_async_loop s.(config) (optimize_image_for_webhook s.(config)
            (process_image s.(config) now0 (mkImage 800 600 []))) (list_at s init_urls_loc)
            (fun _ _ => Status 200) None))
  = ["http://a"; "http://b"].
Proof.
  intros s0 s.
  assert (Hr : reachable (Some Mss) s).
  { apply (rb_step _ _ _ (OpAddUrl "http://b")); [|exact I|exact I].
    apply (rb_step _ _ _ (OpFeed (mkImage 800 600 []) now0)); [|exact I|exact I].
    apply (rb_step _ _ _ (OpAddUrl "http://a")); [|exact I|exact I].
    apply (rb_step _ _ _ (OpEnableExternal true)); [apply rb_init|exact I|exact I]. }
  assert (Hj : mkJob init_urls_loc (optimize_image_for_webhook s.(config)
     (process_image s.(config) now0 (mkImage 800 600 []))) ∈ s.(delivery_threads)).
  { vm_compute. left. }
  split; [exact Hr|]. split; [exact Hj|].
  rewrite (delivery_targets_live_list _ _ Hr _ Hj). vm_compute. reflexivity.
Defined.

(** The message [send_async] writes for a failed target. *)
Lemma send_async_loop_all_ok (cfg : Config) (img : Image) (urls : list string)
    (nets : string -> Network) (err : option string) :
  (forall u, u ∈ urls -> snd (send_image_to_url cfg img u (nets u)) = inr tt) ->
  snd (send_async_loop cfg img urls nets err) = err.
Proof.
  revert err. induction urls as [|u t IH]; intros err Hok; simpl; [done|].
  pose proof (Hok u ltac:(left)) as Hu.
  destruct (send_image_to_url cfg img u (nets u)) as [reqs res]. simpl in Hu. subst res.
  specialize (IH err ltac:(intros x Hx; apply Hok; by right)).
  destruct (send_async_loop cfg img t nets err) as [outs e']. exact IH.
Qed.

Lemma send_async_loop_last_failure (cfg : Config) (img : Image)
    (l1 l2 : list string) (u : string) (nets : string -> Network)
    (err : option string) (reqs : list Request) (e : Exn) :
  send_image_to_url cfg img u (nets u) = (reqs, inl e) ->
  (forall u', u' ∈ l2 -> snd (send_image_to_url cfg img u' (nets u')) = inr tt) ->
  snd (send_async_loop cfg img (l1 ++ u :: l2) nets err) =
    Some (String.append "Webhook send failed to "
            (String.append u (String.append ": " (exn_msg e)))).
Proof.
  intros Hu Hok. revert err. induction l1 as [|x t IH]; intros err; simpl.
  - rewrite Hu.
    match goal with |- context [send_async_loop cfg img l2 nets ?e0] =>
      pose proof (send_async_loop_all_ok cfg img l2 nets e0 Hok) as H;
      destruct (send_async_loop cfg img l2 nets e0) as [outs e'] end.
    simpl in *. by subst.
  - destruct (send_image_to_url cfg img x (nets x)) as [rx resx].
    match goal with |- context [send_async_loop cfg img (t ++ u :: l2) nets ?e0] =>
      specialize (IH e0); destruct (send_async_loop cfg img (t ++ u :: l2) nets e0) end.
    exact IH.
Qed.



(** ** Extra properties: sessions and statistics *)

(** X9.  Stopping and then starting again (without overrides) begins a
    fresh session: capturing, counters at zero with the new start time,
    no last error, and everything else (configuration, latest image, webhook
    lists, delivery threads) as before. *)
Theorem stop_then_start_resets_session (s : State) (now : Now) (l : CaptureLib)
    (Hl : s.(capture_library) = Some l) :
  let '(s', r) := start_capture None None now (stop_capture s) in
  r = inr true /\ s'.(capturing) = true /\
  get_stats s' = mkStats 0 0 (Some now) /\ s'.(last_error) = None /\
  get_config s' = get_config s /\ get_latest_image s' = get_latest_image s /\
  s'.(last_capture_time) = s.(last_capture_time) /\
  s'.(heap) = s.(heap) /\ s'.(delivery_threads) = s.(delivery_threads).
Proof.
  unfold start_capture, stop_capture.
  destruct (capturing s) eqn:Hc; simpl; rewrite Hl; simpl; [|rewrite Hc]; simpl;
    repeat split.
Qed.

Lemma stop_then_start_resets_session_witness :
  let s := fst (start_capture None None now0 (init_state (Some Mss))) in
  (get_stats (tick GrabFailed now0 s)).(total_captures) = 1 /\
  get_stats (fst (start_capture None None now0 (stop_capture (tick GrabFailed now0 s))))
    = mkStats 0 0 (Some now0).
Proof.
  intros s. split; [vm_compute; reflexivity|].
  pose proof (stop_then_start_resets_session (tick GrabFailed now0 s) now0 Mss
                ltac:(vm_compute; reflexivity)) as H.
  destruct (start_capture None None now0 (stop_capture (tick GrabFailed now0 s)))
    as [s' r].
  destruct H as (_ & _ & H & _). exact H.
Defined.

Lemma send_to_external_systems_stats (img : Image) (s : State) :
  (send_to_external_systems img s).(stats) = s.(stats).
Proof. unfold send_to_external_systems. by case_match. Qed.

Ltac same_stats := simpl; repeat split; first [lia | reflexivity].

(** X10.  The capture counters never decrease and the session start time
    never changes, except when [start_capture] begins a new session from
    the idle state, which resets both counters to zero. *)
Theorem stats_counters_monotone (op : Op) (s : State) :
  let s' := exec_op op s in
  ((get_stats s).(total_captures) <= (get_stats s').(total_captures) /\
   (get_stats s).(failed_captures) <= (get_stats s').(failed_captures) /\
   (get_stats s').(start_time) = (get_stats s).(start_time)) \/
  (exists i q now, op = OpStart i q now /\ s.(capturing) = false /\
                   get_stats s' = mkStats 0 0 (Some now)).
Proof.
  unfold get_stats.
  destruct op as [u|i q now| |acq now|image now|url|url|b|f|j nets]; simpl.
  - left. unfold update_config.
    destruct (update_config_body u (config s)) as [[e|[]] c']; same_stats.
  - unfold start_capture.
    destruct (capture_library s); [|left; same_stats].
    destruct (capturing s) eqn:Hc; [left; same_stats|].
    destruct i as [vi|]; [destruct (py_float vi)|];
      (destruct q as [vq|]; [destruct (py_int vq)|]); simpl;
      try (left; same_stats); right; eauto 6.
  - left. unfold stop_capture. destruct (capturing s); same_stats.
  - left. unfold tick. destruct (capture_screenshot _ _ _); simpl; [|same_stats].
    case_match; rewrite ?send_to_external_systems_stats; same_stats.
  - left. unfold feed_external_image. simpl.
    case_match; simpl; rewrite ?send_to_external_systems_stats; same_stats.
  - left. unfold add_webhook_url. case_bool_decide; same_stats.
  - left. unfold remove_webhook_url. case_bool_decide; same_stats.
  - left. same_stats.
  - left. unfold set_external_format. case_bool_decide; same_stats.
  - left. same_stats.
Qed.

(** ** Extra properties: webhook targets *)

Lemma py_list_remove_app_absent (x : string) (l1 l2 : list string) :
  x ∉ l1 -> py_list_remove x (l1 ++ x :: l2) = l1 ++ l2.
Proof.
  induction l1 as [|y t IH]; simpl; intros Hx.
  - by rewrite String.eqb_refl.
  - destruct (String.eqb x y) eqn:E.
    + apply String.eqb_eq in E. subst. exfalso. apply Hx. left.
    + rewrite IH; [done|]. intros H. apply Hx. by right.
Qed.

(** X11.  Adding a URL that is not yet a target and then removing it
    restores the webhook list; both calls report success. *)
Theorem add_then_remove_restores (url : string) (s : State)
    (Hn : url ∉ webhook_list s) :
  let '(s1, b1) := add_webhook_url url s in
  let '(s2, b2) := remove_webhook_url url s1 in
  b1 = true /\ b2 = true /\ webhook_list s2 = webhook_list s /\
  get_config s2 = get_config s.
Proof.
  unfold add_webhook_url. rewrite bool_decide_false by exact Hn. simpl.
  unfold remove_webhook_url.
  assert (Hl : webhook_list (py_list_append s.(config).(webhook_urls) url s)
               = webhook_list s ++ [url]).
  { unfold webhook_list, py_list_append. apply list_at_insert_eq. }
  rewrite Hl, bool_decide_true by (apply elem_of_app; right; by left).
  cbv beta iota.
  split; [done|]. split; [done|]. split; [|reflexivity].
  transitivity (py_list_remove url (webhook_list s ++ [url])); [apply list_at_insert_eq|].
  rewrite (py_list_remove_app_absent url (webhook_list s) [] Hn). apply app_nil_r.
Qed.

Lemma add_then_remove_restores_witness :
  let s := fst (add_webhook_url "http://a" (init_state (Some Mss))) in
  ("http://b" ∉ webhook_list s) /\
  webhook_list (fst (remove_webhook_url "http://b"
                      (fst (add_webhook_url "http://b" s)))) = ["http://a"].
Proof.
  intros s.
  assert (Hn : ("http://b" ∉ webhook_list s)).
  { vm_compute. intros H. apply elem_of_cons in H as [H|H]; [discriminate|].
    by apply elem_of_nil in H. }
  split; [exact Hn|].
  pose proof (add_then_remove_restores "http://b" s Hn) as H.
  destruct (add_webhook_url "http://b" s) as [s1 b1]. cbn [fst].
  destruct (remove_webhook_url "http://b" s1) as [s2 b2]. cbn [fst].
  destruct H as (_ & _ & -> & _). vm_compute. reflexivity.
Defined.

(** X12.  In a reachable state, removing a target and adding it again
    moves it to the end of the webhook list (both calls succeed). *)
Theorem remove_then_add_moves_to_end (lib : option CaptureLib) (s : State)
    (Hr : reachable lib s) (l1 l2 : list string) (url : string)
    (Hl : webhook_list s = l1 ++ url :: l2) :
  let '(s1, b1) := remove_webhook_url url s in
  let '(s2, b2) := add_webhook_url url s1 in
  b1 = true /\ b2 = true /\ webhook_list s2 = l1 ++ l2 ++ [url].
Proof.
  destruct (reachable_by_inv _ _ _ Hr) as (_ & Hnd & _).
  rewrite Hl in Hnd. apply NoDup_app in Hnd as (_ & Hdis & Hnd2).
  assert (Hn1 : url ∉ l1) by (intros H; apply (Hdis url H); left).
  apply NoDup_cons in Hnd2 as [Hn2 _].
  unfold remove_webhook_url. rewrite Hl.
  rewrite bool_decide_true by (apply elem_of_app; right; left). simpl.
  rewrite py_list_remove_app_absent by exact Hn1.
  unfold add_webhook_url.
  assert (Hw : webhook_list (set_heap (<[ s.(config).(webhook_urls) := l1 ++ l2 ]> s.(heap)) s)
               = l1 ++ l2).
  { unfold webhook_list. simpl. apply list_at_insert_eq. }
  rewrite Hw, bool_decide_false
    by (intros H; apply elem_of_app in H as [H|H]; [exact (Hn1 H)|exact (Hn2 H)]).
  simpl. split; [done|]. split; [done|].
  unfold webhook_list, py_list_append. simpl.
  rewrite list_at_insert_eq. unfold list_at. simpl. rewrite lookup_insert_eq. simpl.
  by rewrite <- app_assoc.
Qed.

Lemma remove_then_add_moves_to_end_witness :
  let s := fst (add_webhook_url "http://b" (fst (add_webhook_url "http://a"
             (init_state (Some Mss))))) in
  webhook_list (fst (add_webhook_url "http://a"
                  (fst (remove_webhook_url "http://a" s)))) = ["http://b"; "http://a"].
Proof.
  intros s.
  assert (Hr : reachable (Some Mss) s).
  { apply (rb_step _ _ _ (OpAddUrl "http://b")); [|exact I|exact I].
    apply (rb_step _ _ _ (OpAddUrl "http://a")); [apply rb_init|exact I|exact I]. }
  pose proof (remove_then_add_moves_to_end _ _ Hr [] ["http://b"] "http://a"
                ltac:(vm_compute; reflexivity)) as H.
  destruct (remove_webhook_url "http://a" s) as [s1 b1]. cbn [fst].
  destruct (add_webhook_url "http://a" s1) as [s2 b2]. cbn [fst].
  destruct H as (_ & _ & H). exact H.
Defined.

(** ** Extra properties: the [POST /api/start] route *)

Lemma update_config_ok_valid (u : Update) (s : State) :
  snd (update_config u s) = true -> first_invalid u = None.
Proof.
  pose proof (update_config_body_spec u s.(config)) as Hspec.
  unfold update_config. destruct (first_invalid u); [|done].
  destruct Hspec as [e ->]. simpl. discriminate.
Qed.

Lemma update_config_valid_result (u : Update) (s : State) :
  first_invalid u = None ->
  update_config u s = (set_config (apply_valid_prefix u display_keys s.(config)) s, true).
Proof.
  intros H. pose proof (update_config_body_spec u s.(config)) as Hspec.
  rewrite H in Hspec. unfold update_config. by rewrite Hspec.
Qed.

Lemma first_invalid_none_field (u : Update) (k : string) (v : PyVal) :
  first_invalid u = None -> k ∈ display_keys -> u !! k = Some v ->
  field_valid k v = true.
Proof.
  unfold first_invalid. intros H Hk Hu.
  eapply List.find_none in H; [|apply list_elem_of_In; exact Hk].
  rewrite Hu in H. by destruct (field_valid k v).
Qed.

Lemma api_interval_ok (data : Update) :
  first_invalid data = None ->
  exists x, py_float (dict_get data "interval" (PyFloat 1)) = inr x /\ (0 < x)%Q.
Proof.
  intros H. unfold dict_get.
  destruct (data !! "interval") as [v|] eqn:Hv; simpl; [|by exists 1%Q].
  pose proof (first_invalid_none_field data "interval" v H ltac:(set_solver) Hv) as Hf.
  unfold field_valid, validated_field in Hf. simpl in Hf.
  destruct (py_float v) as [e|x]; [discriminate|].
  exists x. split; [done|]. apply Qlt_bool_true.
  destruct (Qlt_bool 0 x); [done|discriminate].
Qed.

Lemma api_quality_ok (data : Update) :
  first_invalid data = None ->
  exists z, py_int (dict_get data "quality" (PyInt 85)) = inr z /\ 1 <= z <= 100.
Proof.
  intros H. unfold dict_get.
  destruct (data !! "quality") as [v|] eqn:Hv; simpl; [|exists 85; split; [done|lia]].
  pose proof (first_invalid_none_field data "quality" v H ltac:(set_solver) Hv) as Hf.
  unfold field_valid, validated_field in Hf. simpl in Hf.
  destruct (py_int v) as [e|z]; [discriminate|].
  exists z. split; [done|].
  destruct ((1 <=? z) && (z <=? 100)) eqn:E; [|discriminate].
  apply andb_true_iff in E as [E1 E2]. apply Z.leb_le in E1, E2. lia.
Qed.

Lemma start_capture_in_range (i q : PyVal) (now : Now) (s : State) :
  config_in_range s.(config) ->
  (exists x, py_float i = inr x /\ (0 < x)%Q) ->
  (exists z, py_int q = inr z /\ 1 <= z <= 100) ->
  config_in_range (fst (start_capture (Some i) (Some q) now s)).(config).
Proof.
  intros Hc (x & Hx & Hx0) (z & Hz & Hz0). unfold start_capture.
  rewrite Hx, Hz. destruct Hc as (H1 & H2 & H3 & H4).
  destruct (capture_library s); [|done]. destruct (capturing s); [done|].
  unfold config_in_range. simpl. repeat split; (done || lia).
Qed.

Lemma api_start_data_cases (data : Update) (s : State) :
  (Nat.eqb (size data) 0 = true /\ data = ∅) \/
  (Nat.eqb (size data) 0 = false).
Proof.
  destruct (Nat.eqb (size data) 0) eqn:E; [left|by right].
  split; [done|]. apply Nat.eqb_eq in E. by apply map_size_empty_iff.
Qed.

Lemma route_result_state (r : State * (Exn + bool)) :
  fst (match r with
       | (s2, inr true) => (s2, 200)
       | (s2, inr false) => (s2, 500)
       | (s2, inl _) => (s2, 500)
       end) = fst r.
Proof. by destruct r as [s2 [e|[]]]. Qed.






